(** * The integer picker of [stand_alone_examples/integer_picker_example.py]

    A shallow embedding of the class [IntegerPicker], of the enum
    [MODIFIER_KEY] its input methods use and of the class [SelectableRow]
    that displays its value, followed by the properties of its
    value-clamping logic, of its input methods and of its display.

    Python integers are unbounded, so the fields [_value], [_minimum],
    [_maximum], [_step_len] and [_jump_len] are [Z].  The only floats the
    class itself passes around are [float("inf")] and [float("-inf")]
    (in [keypress]); a summand is therefore an integer or one of the two
    infinities.  The value is shown through [display_syntax.format], with
    the default syntax ["{}"]: a decimal rendering, which CPython refuses
    for an integer of more than 4300 digits.  Methods mutate [self], may
    raise, and may call the hook [on_selection_change]: they are
    computations in a state-and-exception monad whose state is the object
    together with the log of hook calls. *)

From Stdlib Require Import ZArith Bool List String Lia.
Import ListNotations.
Local Open Scope Z_scope.

(** ** Numbers *)

(** What [_change_value] receives and computes with: a Python [int], or the
    float [inf] / [-inf]. *)
Inductive number : Type :=
| Int (z : Z)
| PosInf
| NegInf.

(** An [int] mixed with a [float] is first converted to a float.  CPython
    rounds to the nearest double and raises [OverflowError] when the result
    would not be finite: that is exactly when the magnitude reaches
    [2^1024 - 2^970], half an ulp above the largest double. *)
Definition float_limit : Z := 2 ^ 1024 - 2 ^ 970.

Definition int_too_large_for_float (z : Z) : bool := float_limit <=? Z.abs z.

(** An [int] is written in decimal only up to [sys.get_int_max_str_digits()]
    digits, 4300 by default: [str], and [format] with a decimal syntax,
    raise [ValueError] from [10 ** 4300] on, whatever the sign. *)
Definition str_digits_limit : Z := Eval vm_compute in 10 ^ 4300.

Definition too_many_digits (z : Z) : bool := str_digits_limit <=? Z.abs z.

(** Unary minus, as in [-self._step_len] and [-float("inf")]. *)
Definition neg (x : number) : number :=
  match x with
  | Int z => Int (- z)
  | PosInf => NegInf
  | NegInf => PosInf
  end.

(** [x < y] and [x > y].  Python compares an [int] with a [float] exactly,
    without converting, so these never raise. *)
Definition lt (x y : number) : bool :=
  match x, y with
  | Int a, Int b => a <? b
  | NegInf, NegInf => false
  | NegInf, _ => true
  | _, PosInf => match x with PosInf => false | _ => true end
  | _, _ => false
  end.

Definition gt (x y : number) : bool := lt y x.

(** ** Exceptions, results and the monad *)

Inductive exn : Type :=
| AssertionError (msg : string)
| ValueError (msg : string)
| OverflowError (msg : string)
(** Not a Python exception: the run would store a float in [_value], which
    this model keeps an integer.  [_change_value_stores_integers] below
    shows that no run of [_change_value] ends this way. *)
| FloatStored.

Inductive result (A : Type) : Type :=
| Ok (a : A)
| Raise (e : exn).
Arguments Ok {A} a.
Arguments Raise {A} e.

(** The enum [MODIFIER_KEY]. *)
Inductive MODIFIER_KEY : Type :=
| NONE | SHIFT | ALT | CTRL | SHIFT_ALT | SHIFT_CTRL | ALT_CTRL | SHIFT_ALT_CTRL.

Definition MODIFIER_KEY_value (m : MODIFIER_KEY) : string :=
  match m with
  | NONE => ""
  | SHIFT => "shift"
  | ALT => "meta"
  | CTRL => "ctrl"
  | SHIFT_ALT => "shift meta"
  | SHIFT_CTRL => "shift ctrl"
  | ALT_CTRL => "meta ctrl"
  | SHIFT_ALT_CTRL => "shift meta ctrl"
  end.

Definition is_NONE (m : MODIFIER_KEY) : bool :=
  match m with NONE => true | _ => false end.

(** [append_to] and [prepend_to], with the default separator [" "]. *)
Definition append_to (self : MODIFIER_KEY) (text : string) : string :=
  if negb (is_NONE self) then text ++ " " ++ MODIFIER_KEY_value self else text.

Definition prepend_to (self : MODIFIER_KEY) (text : string) : string :=
  if negb (is_NONE self) then MODIFIER_KEY_value self ++ " " ++ text else text.

(** A hook is known by its identity only; what it does is recorded as a call
    with its two arguments.  The first argument is [None] for the call made by
    the constructor and the previous value otherwise. *)
Inductive callback : Type := Callback (id : nat).

Inductive call : Type :=
| Hook (f : callback) (previous : option Z) (current : Z).

(** The attributes of an [IntegerPicker] that its logic reads or writes.
    [_display] is the integer whose formatted text the display row shows. *)
Record IntegerPicker : Type := mkIntegerPicker {
  _value : Z;
  _minimum : Z;
  _maximum : Z;
  _step_len : Z;
  _jump_len : Z;
  on_selection_change : option callback;
  _modifier_key : MODIFIER_KEY;
  _ascending : bool;
  _return_unused_navigation_input : bool;
  _display : Z
}.

Definition with_value (v : Z) (p : IntegerPicker) : IntegerPicker :=
  mkIntegerPicker v (_minimum p) (_maximum p) (_step_len p) (_jump_len p)
    (on_selection_change p) (_modifier_key p) (_ascending p)
    (_return_unused_navigation_input p) (_display p).

Definition with_minimum (v : Z) (p : IntegerPicker) : IntegerPicker :=
  mkIntegerPicker (_value p) v (_maximum p) (_step_len p) (_jump_len p)
    (on_selection_change p) (_modifier_key p) (_ascending p)
    (_return_unused_navigation_input p) (_display p).

Definition with_maximum (v : Z) (p : IntegerPicker) : IntegerPicker :=
  mkIntegerPicker (_value p) (_minimum p) v (_step_len p) (_jump_len p)
    (on_selection_change p) (_modifier_key p) (_ascending p)
    (_return_unused_navigation_input p) (_display p).

Definition with_display (v : Z) (p : IntegerPicker) : IntegerPicker :=
  mkIntegerPicker (_value p) (_minimum p) (_maximum p) (_step_len p) (_jump_len p)
    (on_selection_change p) (_modifier_key p) (_ascending p)
    (_return_unused_navigation_input p) v.

Definition with_ascending (b : bool) (p : IntegerPicker) : IntegerPicker :=
  mkIntegerPicker (_value p) (_minimum p) (_maximum p) (_step_len p) (_jump_len p)
    (on_selection_change p) (_modifier_key p) b
    (_return_unused_navigation_input p) (_display p).

(** The object and everything its hook has been called with, oldest first. *)
Record world : Type := mkWorld {
  self : IntegerPicker;
  calls : list call
}.

Definition M (A : Type) : Type := world -> result A * world.

Definition ret {A} (a : A) : M A := fun w => (Ok a, w).

Definition raise {A} (e : exn) : M A := fun w => (Raise e, w).

Definition bind {A B} (m : M A) (k : A -> M B) : M B :=
  fun w =>
    match m w with
    | (Ok a, w') => k a w'
    | (Raise e, w') => (Raise e, w')
    end.

Declare Scope picker_scope.
Delimit Scope picker_scope with picker.
Notation "x <- m ;; k" := (bind m (fun x => k))
  (at level 61, m at next level, right associativity) : picker_scope.
Notation "m ;; k" := (bind m (fun _ => k))
  (at level 61, right associativity) : picker_scope.
Local Open Scope picker_scope.

Definition get_self : M IntegerPicker := fun w => (Ok (self w), w).

Definition update (f : IntegerPicker -> IntegerPicker) : M unit :=
  fun w => (Ok tt, mkWorld (f (self w)) (calls w)).

(** [f(previous, current)]. *)
Definition invoke (f : callback) (previous : option Z) (current : Z) : M unit :=
  fun w => (Ok tt, mkWorld (self w) (calls w ++ [Hook f previous current])).

(** [self._value + summand] and [self._value - summand]. *)
Definition add (v : Z) (summand : number) : M number :=
  match summand with
  | Int z => ret (Int (v + z))
  | PosInf | NegInf =>
      if int_too_large_for_float v
      then raise (OverflowError "int too large to convert to float")
      else ret summand
  end.

Definition sub (v : Z) (summand : number) : M number :=
  match summand with
  | Int z => ret (Int (v - z))
  | PosInf | NegInf =>
      if int_too_large_for_float v
      then raise (OverflowError "int too large to convert to float")
      else ret (neg summand)
  end.

(** [self._value = x]. *)
Definition assign_value (x : number) : M unit :=
  match x with
  | Int z => update (with_value z)
  | PosInf | NegInf => raise FloatStored
  end.

(** [self._display_syntax.format(x)], for the default [display_syntax]
    (["{}"]) and any other that writes the value in decimal: the number that
    the text shows. *)
Definition display_syntax_format (x : Z) : M Z :=
  if too_many_digits x
  then raise (ValueError
                "Exceeds the limit (4300 digits) for integer string conversion; use sys.set_int_max_str_digits() to increase the limit")
  else ret x.

(** [self._display.set_contents([self._display_syntax.format(self._value)])]:
    the argument is formatted before the row is touched. *)
Definition update_display : M unit :=
  s <- get_self ;;
  shown <- display_syntax_format (_value s) ;;
  update (with_display shown).

(** ** The class *)

(** [__init__], with the keyword arguments the logic depends on: the two
    assertions, the attributes, the display row built from the formatted
    value (line 137), and the call of the hook. *)
Definition __init__ (value min_v max_v step_len jump_len : Z)
    (on_selection_change : option callback)
    (initialization_is_selection_change : bool)
    (modifier_key : MODIFIER_KEY)
    (ascending return_unused_navigation_input : bool)
    (log : list call) : result IntegerPicker * list call :=
  if negb (min_v <=? max_v)
  then (Raise (AssertionError "'min_v' must be less than or equal to 'max_v'."), log)
  else if negb ((min_v <=? value) && (value <=? max_v))
  then (Raise (AssertionError "'min_v <= value <= max_v' must be True."), log)
  else if too_many_digits value
  then (Raise (ValueError
                 "Exceeds the limit (4300 digits) for integer string conversion; use sys.set_int_max_str_digits() to increase the limit"),
        log)
  else
    let p := mkIntegerPicker value min_v max_v step_len jump_len
               on_selection_change modifier_key ascending
               return_unused_navigation_input value in
    if initialization_is_selection_change then
      match on_selection_change with
      | Some f => (Ok p, log ++ [Hook f None value])
      | None => (Ok p, log)
      end
    else (Ok p, log).

(** The branches of [_change_value] either leave the method with a [return]
    ([Some b]) or fall through to the code after the [if] ([None]). *)
Definition _change_value_branches (summand : number) : M (option bool) :=
  s <- get_self ;;
  if _ascending s then
    new_value <- add (_value s) summand ;;
    if lt summand (Int 0) then
      if _value s =? _minimum s then
        ret (Some (negb (_return_unused_navigation_input s)))
      else if gt new_value (Int (_minimum s)) then
        assign_value new_value ;; ret None
      else
        assign_value (Int (_minimum s)) ;; ret None
    else if gt summand (Int 0) then
      if _value s =? _maximum s then
        ret (Some (negb (_return_unused_navigation_input s)))
      else if lt new_value (Int (_maximum s)) then
        assign_value new_value ;; ret None
      else
        assign_value (Int (_maximum s)) ;; ret None
    else ret None
  else
    new_value <- sub (_value s) summand ;;
    if lt summand (Int 0) then
      if _value s =? _maximum s then
        ret (Some (negb (_return_unused_navigation_input s)))
      else if lt new_value (Int (_maximum s)) then
        assign_value new_value ;; ret None
      else
        assign_value (Int (_maximum s)) ;; ret None
    else if gt summand (Int 0) then
      if _value s =? _minimum s then
        ret (Some (negb (_return_unused_navigation_input s)))
      else if gt new_value (Int (_minimum s)) then
        assign_value new_value ;; ret None
      else
        assign_value (Int (_minimum s)) ;; ret None
    else ret None.

Definition _change_value (summand : number) : M bool :=
  s0 <- get_self ;;
  let value_before_input := _value s0 in
  returned <- _change_value_branches summand ;;
  match returned with
  | Some b => ret b
  | None =>
      update_display ;;
      s <- get_self ;;
      (if negb (value_before_input =? _value s) then
         match on_selection_change s with
         | Some f => invoke f (Some value_before_input) (_value s)
         | None => ret tt
         end
       else ret tt) ;;
      ret true
  end.

Definition get_value : M Z := s <- get_self ;; ret (_value s).

Definition set_value (value : Z) : M unit :=
  s <- get_self ;;
  if negb ((_minimum s <=? value) && (value <=? _maximum s)) then
    raise (ValueError "'minimum <= value <= maximum' must be True.")
  else if negb (value =? _value s) then
    let value_before_change := _value s in
    update (with_value value) ;;
    update_display ;;
    s' <- get_self ;;
    match on_selection_change s' with
    | Some f => invoke f (Some value_before_change) (_value s')
    | None => ret tt
    end
  else ret tt.

Definition set_to_minimum : M unit :=
  s <- get_self ;; set_value (_minimum s).

Definition set_to_maximum : M unit :=
  s <- get_self ;; set_value (_maximum s).

Definition set_minimum (new_min : Z) : M unit :=
  s <- get_self ;;
  if _maximum s <? new_min then
    raise (ValueError "'new_min' must be less than or equal to the maximum value.")
  else
    update (with_minimum new_min) ;;
    s' <- get_self ;;
    if _value s' <? new_min then set_to_minimum else ret tt.

Definition set_maximum (new_max : Z) : M unit :=
  s <- get_self ;;
  if new_max <? _minimum s then
    raise (ValueError "'new_max' must be greater than or equal to the minimum value.")
  else
    update (with_maximum new_max) ;;
    s' <- get_self ;;
    if new_max <? _value s' then set_to_maximum else ret tt.



(** [keypress(size, key)]: the key comes back when it was not used. *)
Definition keypress (key : string) : M (option string) :=
  s <- get_self ;;
  successful <-
    (if String.eqb key (prepend_to (_modifier_key s) "up") then
       _change_value (neg (Int (_step_len s)))
     else if String.eqb key (prepend_to (_modifier_key s) "down") then
       _change_value (Int (_step_len s))
     else if String.eqb key (prepend_to (_modifier_key s) "page up") then
       _change_value (neg (Int (_jump_len s)))
     else if String.eqb key (prepend_to (_modifier_key s) "page down") then
       _change_value (Int (_jump_len s))
     else if String.eqb key (prepend_to (_modifier_key s) "home") then
       _change_value NegInf
     else if String.eqb key (prepend_to (_modifier_key s) "end") then
       _change_value PosInf
     else ret false) ;;
  ret (if negb successful then Some key else None).

(** [mouse_event(size, event, button, col, row, focus)]. *)
Definition mouse_event (event : string) (button : Z) (focus : bool) : M bool :=
  s <- get_self ;;
  if focus then
    if String.eqb event (prepend_to (_modifier_key s) "mouse press") then
      if button =? 4 then
        result <- _change_value (neg (Int (_jump_len s))) ;;
        ret (if _return_unused_navigation_input s then result else true)
      else if button =? 5 then
        result <- _change_value (Int (_jump_len s)) ;;
        ret (if _return_unused_navigation_input s then result else true)
      else ret false
    else ret false
  else ret false.

(** ** Running operations *)

(** What a client can do to a picker after constructing it. *)
Inductive operation : Type :=
| Change_value (summand : number)
| Set_value (value : Z)
| Set_to_minimum
| Set_to_maximum
| Set_minimum (new_min : Z)
| Set_maximum (new_max : Z)
| Keypress (key : string)
| Mouse_event (event : string) (button : Z) (focus : bool).

(** The world an operation leaves behind, whether it returned or raised. *)
Definition perform (o : operation) (w : world) : world :=
  match o with
  | Change_value summand => snd (_change_value summand w)
  | Set_value value => snd (set_value value w)
  | Set_to_minimum => snd (set_to_minimum w)
  | Set_to_maximum => snd (set_to_maximum w)
  | Set_minimum new_min => snd (set_minimum new_min w)
  | Set_maximum new_max => snd (set_maximum new_max w)
  | Keypress key => snd (keypress key w)
  | Mouse_event event button focus => snd (mouse_event event button focus w)
  end.

Definition perform_all (os : list operation) (w : world) : world :=
  fold_left (fun w o => perform o w) os w.

(** [n] calls of [_change_value summand] in a row: what each returned or
    raised, and the final world. *)
Fixpoint repeat_change_value (n : nat) (summand : number) (w : world)
  : list (result bool) * world :=
  match n with
  | O => ([], w)
  | S n' =>
      let (r, w') := _change_value summand w in
      let (rs, w'') := repeat_change_value n' summand w' in
      (r :: rs, w'')
  end.

(** ** Predicates used in the statements *)

(** [minimum <= value <= maximum]. *)
Definition in_bounds (p : IntegerPicker) : Prop :=
  _minimum p <= _value p <= _maximum p.

(** The calls a hook receives when the value goes from [previous] to
    [current]: one call when they differ and a hook is set, none otherwise. *)
Definition notification (p : IntegerPicker) (previous current : Z) : list call :=
  match on_selection_change p with
  | Some f => if previous =? current then [] else [Hook f (Some previous) current]
  | None => []
  end.


(** An integer that [format] can write: at most 4300 digits. *)
Definition displayable (z : Z) : Prop := too_many_digits z = false.

(** A summand that can be added to [v]: any integer, and an infinity when
    [v] converts to a float. *)
Definition addable (v : Z) (summand : number) : Prop :=
  match summand with
  | Int _ => True
  | PosInf | NegInf => Z.abs v < float_limit
  end.

(** The bound a summand moves towards: the one the method compares
    [_value] with before doing anything else. *)
Definition bound_towards (p : IntegerPicker) (summand : number) : option Z :=
  if lt summand (Int 0) then
    Some (if _ascending p then _minimum p else _maximum p)
  else if gt summand (Int 0) then
    Some (if _ascending p then _maximum p else _minimum p)
  else None.

(** The two ways to read "the value equals the low bound relevant to the
    current direction, and the amount is decreasing": the amount is negative
    and the value is at the bound a negative amount moves towards (the
    minimum if ascending, the maximum otherwise); or the value is at the
    minimum and the amount would lower it (negative if ascending, positive
    otherwise). *)
Definition exhausted_low (p : IntegerPicker) (summand : number) : Prop :=
  (lt summand (Int 0) = true /\
   _value p = (if _ascending p then _minimum p else _maximum p)) \/
  (_value p = _minimum p /\
   (if _ascending p then lt summand (Int 0) else gt summand (Int 0)) = true).

(** The same world with the picker's [_ascending] set to [asc]. *)
Definition facing (asc : bool) (w : world) : world :=
  mkWorld (with_ascending asc (self w)) (calls w).

(** ** Example pickers *)

(** The picker of the demonstration's right column, with a hook. *)
Definition right_picker : IntegerPicker :=
  mkIntegerPicker 2018 1 9999 1 100 (Some (Callback 0)) CTRL true false 2018.

(** A picker sitting on a bound that no float can represent. *)
Definition huge_picker : IntegerPicker :=
  mkIntegerPicker (- 2 ^ 1024) (- 2 ^ 1024) 0 1 100 (Some (Callback 0))
    NONE true true (- 2 ^ 1024).

(** A picker whose value, though within its bounds, is too large for a
    float. *)
Definition wide_picker : IntegerPicker :=
  mkIntegerPicker (2 ^ 1024) 0 (2 ^ 1025) 1 100 (Some (Callback 0))
    NONE true true (2 ^ 1024).


(** A picker whose maximum is the first integer too long to show, as
    [IntegerPicker(0, min_v=0, max_v=10**4300, on_selection_change=f)]
    builds it. *)
Definition long_picker : IntegerPicker :=
  mkIntegerPicker 0 0 str_digits_limit 1 100 (Some (Callback 0))
    NONE true true 0.

(** The same picker after [set_value(10**4300)] has failed: the value is
    stored, the display still shows 0. *)
Definition stale_picker : IntegerPicker := with_value str_digits_limit long_picker.

(** The picker of the scenario [value=0, minimum=0, maximum=10,
    step_length=1, ascending=true], with a hook. *)
Definition small_picker : IntegerPicker :=
  mkIntegerPicker 0 0 10 1 100 (Some (Callback 0)) NONE true true 0.

(** ** The display row *)

(** The class [SelectableRow]: the list [contents], the text of each column
    widget built from it, and the hook [on_select].  A call of the hook is
    recorded with the row it received. *)
Module SelectableRow.

Record t : Type := mk {
  contents : list string;
  _columns : list string;
  on_select : option callback
}.

Inductive call : Type :=
| Selected (f : callback) (row : t).

(** [__init__]: one [urwid.Text(c)] per element of [contents]. *)
Definition __init__ (contents : list string) (on_select : option callback) : t :=
  mk contents contents on_select.

Definition selectable (self : t) : bool := true.

(** [keypress(size, key)]: the key, or [None] once the hook has run. *)
Definition keypress (key : string) (self : t) (log : list call)
  : option string * list call :=
  if String.eqb key "enter" then
    match on_select self with
    | Some f => (None, log ++ [Selected f self])
    | None => (Some key, log)
    end
  else (Some key, log).

(** [for t, (w, _) in zip(contents, self._columns.contents): w.set_text(t)]:
    [zip] stops at the shorter of the two. *)
Fixpoint set_text_each (contents columns : list string) : list string :=
  match contents, columns with
  | t :: contents', _ :: columns' => t :: set_text_each contents' columns'
  | _, _ => columns
  end.

(** [set_contents]: [self.contents[:] = contents], then the texts. *)
Definition set_contents (contents : list string) (self : t) : t :=
  mk contents (set_text_each contents (_columns self)) (on_select self).

End SelectableRow.

(** ** The bars *)

(** The twelve attributes [__init__] derives from the four [*_prop] triples:
    a markup and the attribute it is shown with, on and off focus (the
    attribute [x] stands for the map [{None: x}]). *)
Record bar_looks : Type := mkBarLooks {
  _topBar_endCovered_markup : string;
  _topBar_endCovered_focus : option string;
  _topBar_endCovered_offFocus : option string;
  _topBar_endExposed_markup : string;
  _topBar_endExposed_focus : option string;
  _topBar_endExposed_offFocus : option string;
  _bottomBar_endCovered_markup : string;
  _bottomBar_endCovered_focus : option string;
  _bottomBar_endCovered_offFocus : option string;
  _bottomBar_endExposed_markup : string;
  _bottomBar_endExposed_focus : option string;
  _bottomBar_endExposed_offFocus : option string
}.

(** What [render] leaves in a bar: its text and its attribute map. *)
Record bar : Type := mkBar {
  text : string;
  attr_map : option string
}.

Definition top_exposed (l : bar_looks) (focus : bool) : bar :=
  mkBar (_topBar_endExposed_markup l)
    (if focus then _topBar_endExposed_focus l else _topBar_endExposed_offFocus l).

Definition top_covered (l : bar_looks) (focus : bool) : bar :=
  mkBar (_topBar_endCovered_markup l)
    (if focus then _topBar_endCovered_focus l else _topBar_endCovered_offFocus l).

Definition bottom_exposed (l : bar_looks) (focus : bool) : bar :=
  mkBar (_bottomBar_endExposed_markup l)
    (if focus then _bottomBar_endExposed_focus l
     else _bottomBar_endExposed_offFocus l).

Definition bottom_covered (l : bar_looks) (focus : bool) : bar :=
  mkBar (_bottomBar_endCovered_markup l)
    (if focus then _bottomBar_endCovered_focus l
     else _bottomBar_endCovered_offFocus l).

(** The two tests of [render]. *)
Definition top_end_reached (p : IntegerPicker) : bool :=
  _value p =? (if _ascending p then _minimum p else _maximum p).

Definition bottom_end_reached (p : IntegerPicker) : bool :=
  _value p =? (if _ascending p then _maximum p else _minimum p).

(** [render(size, focus)], up to the call of the wrapped widget's [render]:
    the top bar and the bottom bar as it sets them. *)
Definition render (p : IntegerPicker) (l : bar_looks) (focus : bool) : bar * bar :=
  (if top_end_reached p then top_exposed l focus else top_covered l focus,
   if bottom_end_reached p then bottom_exposed l focus
   else bottom_covered l focus).

(** ** More vocabulary for the statements *)

(** The keys [keypress] knows, before the modifier is prepended. *)
Definition navigation_keys : list string :=
  ["up"; "down"; "page up"; "page down"; "home"; "end"]%string.

(** The summand [keypress] hands to [_change_value] for each of them. *)
Definition navigation_summand (p : IntegerPicker) (k : string) : option number :=
  if String.eqb k "up" then Some (neg (Int (_step_len p)))
  else if String.eqb k "down" then Some (Int (_step_len p))
  else if String.eqb k "page up" then Some (neg (Int (_jump_len p)))
  else if String.eqb k "page down" then Some (Int (_jump_len p))
  else if String.eqb k "home" then Some NegInf
  else if String.eqb k "end" then Some PosInf
  else None.

(** What [keypress] makes of the result of [_change_value]. *)
Definition key_unless (key : string) (successful : bool) : option string :=
  if negb successful then Some key else None.

(** [x] brought into [[lo, hi]]. *)
Definition clamp (lo hi x : Z) : Z := Z.max lo (Z.min hi x).

(** Where a summand [z] applied [n] times would take the value if there were
    no bounds. *)
Definition target (p : IntegerPicker) (n : Z) (z : Z) : Z :=
  if _ascending p then _value p + n * z else _value p - n * z.


(** The attributes no method assigns after construction. *)
Definition same_configuration (p q : IntegerPicker) : Prop :=
  _step_len p = _step_len q /\
  _jump_len p = _jump_len q /\
  on_selection_change p = on_selection_change q /\
  _modifier_key p = _modifier_key q /\
  _ascending p = _ascending q /\
  _return_unused_navigation_input p = _return_unused_navigation_input q.

(** Whether an operation returns, rather than raises. *)
Definition is_ok {A} (r : result A) : bool :=
  match r with Ok _ => true | Raise _ => false end.

Definition returns (o : operation) (w : world) : bool :=
  match o with
  | Change_value summand => is_ok (fst (_change_value summand w))
  | Set_value value => is_ok (fst (set_value value w))
  | Set_to_minimum => is_ok (fst (set_to_minimum w))
  | Set_to_maximum => is_ok (fst (set_to_maximum w))
  | Set_minimum new_min => is_ok (fst (set_minimum new_min w))
  | Set_maximum new_max => is_ok (fst (set_maximum new_max w))
  | Keypress key => is_ok (fst (keypress key w))
  | Mouse_event event button focus => is_ok (fst (mouse_event event button focus w))
  end.



(** The operations that assign a bound. *)
Definition sets_bound (o : operation) : bool :=
  match o with
  | Set_minimum _ | Set_maximum _ => true
  | _ => false
  end.

(** ** Proof tools *)

Arguments int_too_large_for_float : simpl never.
Arguments too_many_digits : simpl never.

Ltac bool_to_prop :=
  repeat match goal with
  | H : negb _ = true |- _ => apply negb_true_iff in H
  | H : negb _ = false |- _ => apply negb_false_iff in H
  | H : (_ <? _) = true |- _ => apply Z.ltb_lt in H
  | H : (_ <? _) = false |- _ => apply Z.ltb_ge in H
  | H : (_ <=? _) = true |- _ => apply Z.leb_le in H
  | H : (_ <=? _) = false |- _ => apply Z.leb_gt in H
  | H : (_ =? _) = true |- _ => apply Z.eqb_eq in H
  | H : (_ =? _) = false |- _ => apply Z.eqb_neq in H
  | H : (_ && _) = true |- _ => apply andb_true_iff in H; destruct H
  | H : (_ && _) = false |- _ => apply andb_false_iff in H
  end.

Ltac unfold_monad :=
  unfold bind, ret, raise, get_self, update, invoke, update_display,
    display_syntax_format, assign_value, add, sub, gt, lt, neg in *.

Ltac split_if :=
  match goal with
  | |- context [if ?b then _ else _] => destruct b eqn:?
  | |- context [match ?h with Some _ => _ | None => _ end] =>
      destruct h eqn:?
  end.

Ltac crunch :=
  cbn in *; repeat (split_if; cbn in * ); bool_to_prop.

Ltac through_change_value w :=
  cbv [bind get_self ret];
  repeat match goal with
         | |- context [if ?b then _ else _] => destruct b
         end;
  first
    [ match goal with
      | |- context [_change_value ?x w] =>
          right; exists x; destruct (_change_value x w) as [[? | ?] ?];
          reflexivity
      end
    | left; reflexivity ].

(** ** Conversion to a float *)

Lemma int_too_large_for_float_false v :
  Z.abs v < float_limit -> int_too_large_for_float v = false.
Proof. intros H. unfold int_too_large_for_float. apply Z.leb_gt. exact H. Qed.

(** ** Writing an integer in decimal *)

Lemma too_many_digits_iff z :
  too_many_digits z = true <-> str_digits_limit <= Z.abs z.
Proof. unfold too_many_digits. apply Z.leb_le. Qed.

Lemma displayable_iff z : displayable z <-> Z.abs z < str_digits_limit.
Proof. unfold displayable, too_many_digits. apply Z.leb_gt. Qed.

(** Whatever lies between two integers that can be written can be
    written. *)
Lemma displayable_between lo hi z :
  lo <= z <= hi -> displayable lo -> displayable hi -> displayable z.
Proof. rewrite !displayable_iff. lia. Qed.

Lemma str_digits_limit_too_long : too_many_digits str_digits_limit = true.
Proof. reflexivity. Qed.

(** The limit, stored in binary, is the power of ten it was computed
    from. *)
Lemma str_digits_limit_is_power : str_digits_limit = 10 ^ 4300.
Proof. vm_compute. reflexivity. Qed.

(** Closes a goal whose context has an integer between two displayable
    ones and yet too long. *)
Ltac digits :=
  unfold displayable in *;
  repeat match goal with
         | H : too_many_digits _ = true |- _ =>
             apply too_many_digits_iff in H
         | H : too_many_digits _ = false |- _ =>
             apply (proj1 (displayable_iff _)) in H
         end;
  lia.

(** ** Runs on concrete pickers *)

(** A step below the minimum is handed back and changes nothing. *)
Example small_picker_step_down :
  _change_value (Int (-1)) (mkWorld small_picker [])
  = (Ok false, mkWorld small_picker []).
Proof. reflexivity. Qed.

(** Five steps up reach 5, with one hook call per step. *)
Example small_picker_five_steps :
  repeat_change_value 5 (Int 1) (mkWorld small_picker [])
  = (repeat (Ok true) 5,
     mkWorld (with_display 5 (with_value 5 small_picker))
       [Hook (Callback 0) (Some 0) 1; Hook (Callback 0) (Some 1) 2;
        Hook (Callback 0) (Some 2) 3; Hook (Callback 0) (Some 3) 4;
        Hook (Callback 0) (Some 4) 5]).
Proof. reflexivity. Qed.

(** From 5, the key "end" goes to the maximum and is consumed. *)
Example small_picker_end_key :
  keypress "end" (mkWorld (with_display 5 (with_value 5 small_picker)) [])
  = (Ok None,
     mkWorld (with_display 10 (with_value 10 small_picker))
       [Hook (Callback 0) (Some 5) 10]).
Proof. vm_compute. reflexivity. Qed.

(** The right picker of the demonstration answers to modified keys only. *)
Example right_picker_keys :
  keypress "up" (mkWorld right_picker []) = (Ok (Some "up"%string), mkWorld right_picker [])
  /\ keypress "ctrl up" (mkWorld right_picker [])
     = (Ok None,
        mkWorld (with_display 2017 (with_value 2017 right_picker))
          [Hook (Callback 0) (Some 2018) 2017]).
Proof. split; vm_compute; reflexivity. Qed.

(** A wheel turn at the bound is reported as used when unused navigation
    input is not returned. *)
Example right_picker_wheel :
  mouse_event "ctrl mouse press" 5 true
    (mkWorld (with_value 9999 right_picker) [])
  = (Ok true, mkWorld (with_value 9999 right_picker) []).
Proof. vm_compute. reflexivity. Qed.

(** ** The model never leaves the integers *)

(** No run of [_change_value] stores a float: wherever the method assigns
    [new_value], the comparison guarding the assignment fails for an
    infinity. *)
Lemma _change_value_stores_integers summand w :
  fst (_change_value summand w) <> Raise FloatStored.
Proof.
  destruct w as [[v mn mx st jl h mk asc ru d] tr].
  unfold _change_value, _change_value_branches. unfold_monad.
  destruct asc, summand; crunch; discriminate.
Qed.

(** ** Bounds are preserved *)

Section Bounds.

Variable w : world.
Hypothesis ok : in_bounds (self w).

Lemma _change_value_in_bounds summand :
  in_bounds (self (snd (_change_value summand w))).
Proof.
  revert ok. destruct w as [[v mn mx st jl h mk asc ru d] tr].
  unfold in_bounds, _change_value, _change_value_branches. unfold_monad.
  destruct asc, summand; crunch; lia.
Qed.

Lemma set_value_in_bounds value :
  in_bounds (self (snd (set_value value w))).
Proof.
  revert ok. destruct w as [[v mn mx st jl h mk asc ru d] tr].
  unfold in_bounds, set_value. unfold_monad.
  crunch; lia.
Qed.

Lemma set_minimum_in_bounds new_min :
  in_bounds (self (snd (set_minimum new_min w))).
Proof.
  revert ok. destruct w as [[v mn mx st jl h mk asc ru d] tr].
  unfold in_bounds, set_minimum, set_to_minimum, set_value. unfold_monad.
  crunch; lia.
Qed.

Lemma set_maximum_in_bounds new_max :
  in_bounds (self (snd (set_maximum new_max w))).
Proof.
  revert ok. destruct w as [[v mn mx st jl h mk asc ru d] tr].
  unfold in_bounds, set_maximum, set_to_maximum, set_value. unfold_monad.
  crunch; lia.
Qed.

End Bounds.

(** ** The input methods only go through [_change_value] *)

Lemma keypress_world key w :
  snd (keypress key w) = w \/
  exists summand, snd (keypress key w) = snd (_change_value summand w).
Proof. unfold keypress. through_change_value w. Qed.

Lemma mouse_event_world event button focus w :
  snd (mouse_event event button focus w) = w \/
  exists summand,
    snd (mouse_event event button focus w) = snd (_change_value summand w).
Proof. unfold mouse_event. through_change_value w. Qed.

Lemma set_to_minimum_unfold w :
  set_to_minimum w = set_value (_minimum (self w)) w.
Proof. reflexivity. Qed.

Lemma set_to_maximum_unfold w :
  set_to_maximum w = set_value (_maximum (self w)) w.
Proof. reflexivity. Qed.

Lemma perform_in_bounds o w :
  in_bounds (self w) -> in_bounds (self (perform o w)).
Proof.
  intros ok. destruct o; simpl.
  - now apply _change_value_in_bounds.
  - now apply set_value_in_bounds.
  - rewrite set_to_minimum_unfold. now apply set_value_in_bounds.
  - rewrite set_to_maximum_unfold. now apply set_value_in_bounds.
  - now apply set_minimum_in_bounds.
  - now apply set_maximum_in_bounds.
  - destruct (keypress_world key w) as [-> | [s ->]];
      [exact ok | now apply _change_value_in_bounds].
  - destruct (mouse_event_world event button focus w) as [-> | [s ->]];
      [exact ok | now apply _change_value_in_bounds].
Qed.

Lemma perform_all_in_bounds os :
  forall w, in_bounds (self w) -> in_bounds (self (perform_all os w)).
Proof.
  induction os as [| o os IH]; intros w ok; simpl.
  - exact ok.
  - apply IH. now apply perform_in_bounds.
Qed.

(** The constructor succeeds only on ordered bounds around a value that
    can be shown, and then builds the picker from its arguments. *)
Lemma __init___result value min_v max_v step_len jump_len h isc mk asc ru log p log' :
  __init__ value min_v max_v step_len jump_len h isc mk asc ru log = (Ok p, log') ->
  (min_v <= max_v /\ min_v <= value <= max_v) /\
  displayable value /\
  p = mkIntegerPicker value min_v max_v step_len jump_len h mk asc ru value.
Proof.
  unfold __init__, displayable.
  destruct (Z.leb_spec min_v max_v); simpl; [| discriminate].
  destruct (Z.leb_spec min_v value), (Z.leb_spec value max_v); simpl;
    try discriminate.
  destruct (too_many_digits value); [discriminate |].
  destruct isc, h; intros E; inversion E; auto.
Qed.

(** C1. Bounds invariant: a construction succeeds only with
    [min_v <= max_v] and [min_v <= value <= max_v], and then
    [minimum <= value <= maximum] holds right after it and after every
    sequence of operations on the picker ([_change_value], [set_value],
    [set_minimum], [set_maximum], and also [set_to_minimum],
    [set_to_maximum], [keypress] and [mouse_event]), whether the
    operations return or raise. *)
Theorem bounds_invariant
    value min_v max_v step_len jump_len h isc mk asc ru log p log' :
  __init__ value min_v max_v step_len jump_len h isc mk asc ru log = (Ok p, log') ->
  (min_v <= max_v /\ min_v <= value <= max_v) /\
  forall os, in_bounds (self (perform_all os (mkWorld p log'))).
Proof.
  intros H. apply __init___result in H. destruct H as (R & _ & ->).
  split; [exact R |].
  intros os. apply perform_all_in_bounds.
  unfold in_bounds. simpl. tauto.
Qed.

Lemma bounds_invariant_witness :
  (1 <= 9999 /\ 1 <= 2018 <= 9999) /\
  forall os, in_bounds (self (perform_all os (mkWorld right_picker []))).
Proof.
  apply (bounds_invariant 2018 1 9999 1 100 (Some (Callback 0)) false CTRL
           true false [] right_picker []).
  reflexivity.
Defined.

(** ** Input at an exhausted bound *)

(** At the bound a summand moves towards, [_change_value] returns at once:
    nothing is written, nothing is called, and the result is the negation of
    [_return_unused_navigation_input]. *)
Lemma _change_value_exhausted w summand :
  bound_towards (self w) summand = Some (_value (self w)) ->
  addable (_value (self w)) summand ->
  _change_value summand w
  = (Ok (negb (_return_unused_navigation_input (self w))), w).
Proof.
  destruct w as [[v mn mx st jl h mk asc ru d] tr].
  unfold bound_towards, addable, _change_value, _change_value_branches.
  unfold_monad. simpl.
  intros B A.
  destruct summand as [z | |]; simpl in *;
    try rewrite (int_too_large_for_float_false v A); simpl;
    destruct asc; simpl in *;
    repeat match type of B with
           | (if ?b then _ else _) = _ => destruct b eqn:?; simpl in *
           end;
    try discriminate; inversion B; subst;
    rewrite Z.eqb_refl; reflexivity.
Qed.

Lemma repeat_change_value_exhausted w summand n :
  bound_towards (self w) summand = Some (_value (self w)) ->
  addable (_value (self w)) summand ->
  repeat_change_value n summand w
  = (repeat (Ok (negb (_return_unused_navigation_input (self w)))) n, w).
Proof.
  intros B A. induction n as [| n IH]; simpl.
  - reflexivity.
  - rewrite (_change_value_exhausted w summand B A), IH. reflexivity.
Qed.

(** C2. Exhausted input at a bound is not always handed back: for the
    sentinel [float("-inf")] on a picker whose value is too large for a
    float, the picker is ascending at its minimum, the amount is decreasing
    and [_return_unused_navigation_input] is true, yet the addition of line
    231 raises [OverflowError] before the bound test of line 236 can return
    false. *)
Lemma exhausted_input_counterexample :
  let w := mkWorld huge_picker [] in
  _ascending (self w) = true /\
  _value (self w) = _minimum (self w) /\
  lt NegInf (Int 0) = true /\
  _return_unused_navigation_input (self w) = true /\
  _change_value NegInf w
  = (Raise (OverflowError "int too large to convert to float"), w) /\
  fst (_change_value NegInf w) <> Ok false.
Proof. vm_compute. repeat split; discriminate. Qed.

Lemma exhausted_low_bound_towards p summand :
  exhausted_low p summand -> bound_towards p summand = Some (_value p).
Proof.
  unfold exhausted_low, bound_towards, gt.
  intros [[L V] | [V L]].
  - rewrite L, V. reflexivity.
  - rewrite V. destruct (_ascending p).
    + rewrite L. reflexivity.
    + rewrite L.
      destruct summand as [z | |]; simpl in *; try discriminate; try reflexivity.
      apply Z.ltb_lt in L. destruct (Z.ltb_spec z 0); [lia | reflexivity].
Qed.

(** X20. Exhausted input at a bound: when the value equals the low
    bound relevant to the direction, [_change_value] with a decreasing
    amount, an integer, or the infinite sentinel on a value that converts to
    a float, leaves the whole object unchanged and calls no hook; it returns
    false when [_return_unused_navigation_input] is true and true when it is
    false, and any number of such calls in a row all return the same and
    still leave the object unchanged. *)
Theorem exhausted_input_at_bound (w : world) (summand : number) :
  exhausted_low (self w) summand ->
  addable (_value (self w)) summand ->
  _change_value summand w
  = (Ok (negb (_return_unused_navigation_input (self w))), w) /\
  forall n,
    repeat_change_value n summand w
    = (repeat (Ok (negb (_return_unused_navigation_input (self w)))) n, w).
Proof.
  intros E A. apply exhausted_low_bound_towards in E.
  split.
  - now apply _change_value_exhausted.
  - intros n. now apply repeat_change_value_exhausted.
Qed.

Lemma exhausted_input_at_bound_witness :
  _change_value (Int (-1)) (mkWorld (with_value 1 right_picker) [])
  = (Ok true, mkWorld (with_value 1 right_picker) []) /\
  forall n,
    repeat_change_value n (Int (-1)) (mkWorld (with_value 1 right_picker) [])
    = (repeat (Ok true) n, mkWorld (with_value 1 right_picker) []).
Proof.
  apply (exhausted_input_at_bound (mkWorld (with_value 1 right_picker) [])
           (Int (-1))).
  - left. split; reflexivity.
  - exact I.
Defined.

(** ** When the hook is called *)

Lemma notification_same p v : notification p v v = [].
Proof. unfold notification. rewrite Z.eqb_refl. now destruct (on_selection_change p). Qed.

Ltac decide_equal_values :=
  repeat match goal with
         | |- context [?a =? ?b] => destruct (Z.eqb_spec a b)
         end;
  try rewrite app_nil_r; try reflexivity; try lia.

(** What a method has added to the hook log when it is left: the
    notification of the change if it returns, nothing if it raises. *)
Lemma _change_value_notifies summand w :
  calls (snd (_change_value summand w))
  = calls w ++
    (if is_ok (fst (_change_value summand w))
     then notification (self w) (_value (self w))
            (_value (self (snd (_change_value summand w))))
     else []).
Proof.
  destruct w as [[v mn mx st jl h mk asc ru d] tr].
  unfold notification, _change_value, _change_value_branches. unfold_monad.
  destruct h, asc, summand; crunch; decide_equal_values.
Qed.

Lemma set_value_notifies value w :
  calls (snd (set_value value w))
  = calls w ++
    (if is_ok (fst (set_value value w))
     then notification (self w) (_value (self w))
            (_value (self (snd (set_value value w))))
     else []).
Proof.
  destruct w as [[v mn mx st jl h mk asc ru d] tr].
  unfold notification, set_value. unfold_monad.
  destruct h; crunch; decide_equal_values.
Qed.

Lemma set_minimum_notifies new_min w :
  calls (snd (set_minimum new_min w))
  = calls w ++
    (if is_ok (fst (set_minimum new_min w))
     then notification (self w) (_value (self w))
            (_value (self (snd (set_minimum new_min w))))
     else []).
Proof.
  destruct w as [[v mn mx st jl h mk asc ru d] tr].
  unfold notification, set_minimum, set_to_minimum, set_value. unfold_monad.
  destruct h; crunch; decide_equal_values.
Qed.

Lemma set_maximum_notifies new_max w :
  calls (snd (set_maximum new_max w))
  = calls w ++
    (if is_ok (fst (set_maximum new_max w))
     then notification (self w) (_value (self w))
            (_value (self (snd (set_maximum new_max w))))
     else []).
Proof.
  destruct w as [[v mn mx st jl h mk asc ru d] tr].
  unfold notification, set_maximum, set_to_maximum, set_value. unfold_monad.
  destruct h; crunch; decide_equal_values.
Qed.

Ltac through_change_value_outcome w :=
  cbv [bind get_self ret];
  repeat match goal with
         | |- context [if ?b then _ else _] => destruct b
         end;
  first
    [ match goal with
      | |- context [_change_value ?x w] =>
          right; exists x; destruct (_change_value x w) as [[? | ?] ?];
          split; reflexivity
      end
    | left; split; reflexivity ].

Lemma keypress_outcome key w :
  (snd (keypress key w) = w /\ is_ok (fst (keypress key w)) = true) \/
  exists summand,
    snd (keypress key w) = snd (_change_value summand w) /\
    is_ok (fst (keypress key w)) = is_ok (fst (_change_value summand w)).
Proof. unfold keypress. through_change_value_outcome w. Qed.

Lemma mouse_event_outcome event button focus w :
  (snd (mouse_event event button focus w) = w /\
   is_ok (fst (mouse_event event button focus w)) = true) \/
  exists summand,
    snd (mouse_event event button focus w) = snd (_change_value summand w) /\
    is_ok (fst (mouse_event event button focus w))
    = is_ok (fst (_change_value summand w)).
Proof. unfold mouse_event. through_change_value_outcome w. Qed.

Lemma perform_notifies o w :
  calls (perform o w)
  = calls w ++
    (if returns o w
     then notification (self w) (_value (self w)) (_value (self (perform o w)))
     else []).
Proof.
  destruct o; simpl.
  - apply _change_value_notifies.
  - apply set_value_notifies.
  - rewrite set_to_minimum_unfold. apply set_value_notifies.
  - rewrite set_to_maximum_unfold. apply set_value_notifies.
  - apply set_minimum_notifies.
  - apply set_maximum_notifies.
  - destruct (keypress_outcome key w) as [[-> ->] | [s [-> ->]]].
    + rewrite notification_same, app_nil_r. reflexivity.
    + apply _change_value_notifies.
  - destruct (mouse_event_outcome event button focus w)
      as [[-> ->] | [s [-> ->]]].
    + rewrite notification_same, app_nil_r. reflexivity.
    + apply _change_value_notifies.
Qed.

(** X22. The hook and the outcome of an operation: an operation that
    returns has called the hook once, with the previous and the new value,
    if the value it leaves differs from the value it found, and not at all
    if the value is the same (or no hook is set); an operation that raises
    has not called the hook. *)
Theorem hook_called_when_operation_returns (o : operation) (w : world) :
  (returns o w = true ->
   calls (perform o w)
   = calls w ++ notification (self w) (_value (self w))
                  (_value (self (perform o w)))) /\
  (returns o w = false -> calls (perform o w) = calls w).
Proof.
  rewrite perform_notifies.
  split; intros ->; [reflexivity | apply app_nil_r].
Qed.

(** C3. The hook is not always called when the value changes: on the picker
    [IntegerPicker(0, min_v=0, max_v=10**4300, on_selection_change=f)] the
    key end stores the maximum, then the refresh of the display raises
    [ValueError] (line 280), and the method is left with the value changed
    from 0 to [10**4300], the display still showing 0 and the hook not
    called. *)
Lemma hook_missed_on_refresh_failure :
  let w := mkWorld long_picker [] in
  on_selection_change (self w) = Some (Callback 0) /\
  keypress "end" w
  = (Raise (ValueError
              "Exceeds the limit (4300 digits) for integer string conversion; use sys.set_int_max_str_digits() to increase the limit"),
     mkWorld stale_picker []) /\
  _value (self (snd (keypress "end" w))) <> _value (self w) /\
  _display (self (snd (keypress "end" w))) = 0 /\
  calls (snd (keypress "end" w)) = [].
Proof. vm_compute. repeat split; discriminate. Qed.

(** ** Descending order *)

(** C4. Descending/ascending equivalence: on any picker and any summand
    [s], [_change_value s] with [_ascending] false and [_change_value (-s)]
    with [_ascending] true return (or raise) the same, leave the same value,
    and make the same hook calls; in fact they leave the same object, up to
    the flag [_ascending] itself. *)
Theorem descending_is_negated_ascending (w : world) (summand : number) :
  let d := _change_value summand (facing false w) in
  let a := _change_value (neg summand) (facing true w) in
  fst d = fst a /\
  _value (self (snd d)) = _value (self (snd a)) /\
  calls (snd d) = calls (snd a) /\
  snd a = facing true (snd d).
Proof.
  destruct w as [[v mn mx st jl h mk asc ru d] tr].
  unfold facing, _change_value, _change_value_branches. unfold_monad.
  destruct summand as [z | |]; cbn [neg]; rewrite ?Z.add_opp_r; crunch;
    try (repeat split; reflexivity); try lia; congruence.
Qed.

(** ** The infinite sentinels *)

(** C5. The infinity sentinel does not always reach the bound: on a value
    too large for a float the picker is validly constructed and ascending,
    yet [_change_value(float("inf"))] raises [OverflowError] at the addition
    of line 231 and the value stays below the maximum. *)
Lemma go_to_end_counterexample :
  let w := mkWorld wide_picker [] in
  __init__ (2 ^ 1024) 0 (2 ^ 1025) 1 100 (Some (Callback 0)) false NONE true true []
  = (Ok wide_picker, []) /\
  _ascending (self w) = true /\
  _change_value PosInf w
  = (Raise (OverflowError "int too large to convert to float"), w) /\
  _value (self (snd (_change_value PosInf w))) <> _maximum (self w).
Proof. vm_compute. repeat split; discriminate. Qed.



(** ** A jump past the maximum *)




(** ** Setting the value and the bounds *)

(** C7. [set_value] with a new value inside the bounds does not always
    update and notify: on the picker
    [IntegerPicker(0, min_v=0, max_v=10**4300, on_selection_change=f)],
    [set_value(10**4300)] passes the range check and stores the value, then
    the refresh of the display raises [ValueError] (line 301): the call
    raises, the display still shows 0 and the hook is not called. *)
Lemma set_value_refresh_failure :
  let w := mkWorld long_picker [] in
  _minimum (self w) <= str_digits_limit <= _maximum (self w) /\
  str_digits_limit <> _value (self w) /\
  set_value str_digits_limit w
  = (Raise (ValueError
              "Exceeds the limit (4300 digits) for integer string conversion; use sys.set_int_max_str_digits() to increase the limit"),
     mkWorld stale_picker []) /\
  _value stale_picker = str_digits_limit /\
  _display stale_picker = 0.
Proof. vm_compute. repeat split; discriminate. Qed.



(** C8. A bound adjustment that clamps does not always notify: on the
    picker [IntegerPicker(0, min_v=0, max_v=10**4300, on_selection_change=f)],
    [set_minimum(10**4300)] has [v <= maximum] and [v > value]; it stores the
    minimum, then [set_value] stores the value and the refresh of the
    display raises [ValueError] (line 301): the call raises and the hook is
    not called. *)
Lemma set_minimum_refresh_failure :
  let w := mkWorld long_picker [] in
  str_digits_limit <= _maximum (self w) /\
  _value (self w) < str_digits_limit /\
  set_minimum str_digits_limit w
  = (Raise (ValueError
              "Exceeds the limit (4300 digits) for integer string conversion; use sys.set_int_max_str_digits() to increase the limit"),
     mkWorld (with_value str_digits_limit
                (with_minimum str_digits_limit long_picker)) []).
Proof. vm_compute. repeat split; discriminate. Qed.



(** C9. Bound setters are atomic on error: [set_minimum(new_min)] with
    [new_min] above the maximum raises [ValueError] and leaves value, minimum,
    maximum, the rest of the object and the hook log as they were;
    symmetrically [set_maximum(new_max)] with [new_max] below the minimum. *)
Theorem bound_setters_atomic_on_error (w : world) (v : Z) :
  (_maximum (self w) < v ->
   set_minimum v w
   = (Raise (ValueError
               "'new_min' must be less than or equal to the maximum value."),
      w)) /\
  (v < _minimum (self w) ->
   set_maximum v w
   = (Raise (ValueError
               "'new_max' must be greater than or equal to the minimum value."),
      w)).
Proof.
  destruct w as [p tr]. unfold set_minimum, set_maximum. unfold_monad. simpl.
  split; intros H; apply Z.ltb_lt in H; rewrite H; reflexivity.
Qed.

Lemma bound_setters_atomic_on_error_witness :
  set_minimum 10000 (mkWorld right_picker [])
  = (Raise (ValueError
              "'new_min' must be less than or equal to the maximum value."),
     mkWorld right_picker []) /\
  set_maximum 0 (mkWorld right_picker [])
  = (Raise (ValueError
              "'new_max' must be greater than or equal to the minimum value."),
     mkWorld right_picker []).
Proof.
  destruct (bound_setters_atomic_on_error (mkWorld right_picker []) 10000)
    as [H0 _].
  destruct (bound_setters_atomic_on_error (mkWorld right_picker []) 0)
    as [_ H1].
  split; [apply H0 | apply H1]; reflexivity.
Defined.

(** ** A summand of zero *)

(** C10. A summand of zero is not handled in every state: after
    [set_value(10**4300)] has failed on the picker
    [IntegerPicker(0, min_v=0, max_v=10**4300, on_selection_change=f)], the
    value is [10**4300], and [_change_value(0)] raises [ValueError] at the
    refresh of the display (line 280) instead of returning true. *)
Lemma zero_delta_refresh_failure :
  snd (set_value str_digits_limit (mkWorld long_picker []))
  = mkWorld stale_picker [] /\
  in_bounds stale_picker /\
  _change_value (Int 0) (mkWorld stale_picker [])
  = (Raise (ValueError
              "Exceeds the limit (4300 digits) for integer string conversion; use sys.set_int_max_str_digits() to increase the limit"),
     mkWorld stale_picker []).
Proof.
  split; [| split].
  - vm_compute. reflexivity.
  - unfold in_bounds. vm_compute. split; discriminate.
  - vm_compute. reflexivity.
Qed.



(** ** Steps with an integer summand *)

(** One call with an integer summand keeps everything but the value and
    the display, and brings the value to the clamped target, whether it
    returns or the refresh of the display raises. *)
Lemma _change_value_int_step w z :
  in_bounds (self w) ->
  let w' := snd (_change_value (Int z) w) in
  _minimum (self w') = _minimum (self w) /\
  _maximum (self w') = _maximum (self w) /\
  _ascending (self w') = _ascending (self w) /\
  _value (self w')
  = clamp (_minimum (self w)) (_maximum (self w)) (target (self w) 1 z).
Proof.
  destruct w as [[v mn mx st jl h mk asc ru d] tr].
  unfold in_bounds, clamp, target. rewrite !Z.mul_1_l.
  unfold _change_value, _change_value_branches.
  unfold_monad. simpl. intros ok.
  destruct asc; crunch; repeat split; eauto; lia.
Qed.



Lemma clamp_step lo hi v t z :
  lo <= v <= hi -> 0 <= t * z ->
  clamp lo hi (clamp lo hi (v + z) + t) = clamp lo hi (v + (z + t)).
Proof.
  unfold clamp. intros B S.
  assert (C : (0 <= z /\ 0 <= t) \/ (z <= 0 /\ t <= 0)).
  { destruct (Z_le_gt_dec 0 z), (Z_le_gt_dec 0 t).
    - left. lia.
    - right. split; [nia | lia].
    - right. split; [lia | nia].
    - right. lia. }
  lia.
Qed.

Lemma repeat_change_value_int n z :
  forall w,
    in_bounds (self w) ->
    _value (self (snd (repeat_change_value n (Int z) w)))
    = clamp (_minimum (self w)) (_maximum (self w))
        (target (self w) (Z.of_nat n) z).
Proof.
  induction n as [| n IH]; intros w ok.
  - unfold target, clamp, in_bounds in *. cbn [repeat_change_value snd Z.of_nat].
    destruct (_ascending (self w)); lia.
  - assert (ok' := _change_value_in_bounds w ok (Int z)).
    destruct (_change_value_int_step w z ok) as (Mn & Mx & A & V).
    cbn [repeat_change_value].
    destruct (_change_value (Int z) w) as [r w'] eqn:E1. cbn [snd] in *.
    specialize (IH w' ok').
    destruct (repeat_change_value n (Int z) w') as [rs w''] eqn:E2.
    cbn [snd] in *.
    rewrite IH, Mn, Mx. unfold target in *. rewrite A, V.
    rewrite Nat2Z.inj_succ.
    unfold in_bounds in ok.
    destruct (_ascending (self w)).
    + replace (_value (self w) + 1 * z) with (_value (self w) + z) by lia.
      rewrite clamp_step by (try assumption; nia). f_equal. lia.
    + replace (_value (self w) - 1 * z) with (_value (self w) + - z) by lia.
      replace (clamp (_minimum (self w)) (_maximum (self w)) (_value (self w) + - z)
               - Z.of_nat n * z)
        with (clamp (_minimum (self w)) (_maximum (self w)) (_value (self w) + - z)
              + - (Z.of_nat n * z)) by lia.
      rewrite clamp_step by (try assumption; nia). f_equal. lia.
Qed.

(** X2. Steps add up: on a picker within its bounds, [n] calls of
    [_change_value] with the same integer summand [z] leave the value where
    a single move by [n * z] would, at [value + n * z] ([value - n * z] when
    descending) brought into [[minimum, maximum]]. *)
Theorem repeated_steps_add_up (w : world) (n : nat) (z : Z) :
  in_bounds (self w) ->
  _value (self (snd (repeat_change_value n (Int z) w)))
  = clamp (_minimum (self w)) (_maximum (self w))
      (if _ascending (self w) then _value (self w) + Z.of_nat n * z
       else _value (self w) - Z.of_nat n * z).
Proof. intros ok. now rewrite repeat_change_value_int. Qed.

Lemma repeated_steps_add_up_witness :
  _value (self (snd (repeat_change_value 7 (Int 2) (mkWorld small_picker [])))) = 10.
Proof.
  apply (repeated_steps_add_up (mkWorld small_picker []) 7 2).
  unfold in_bounds. simpl. lia.
Defined.

(** ** What [_change_value] returns and when it raises *)

Lemma addable_iff v summand :
  addable v summand <->
  match summand with
  | Int _ => True
  | PosInf | NegInf => int_too_large_for_float v = false
  end.
Proof.
  unfold addable, int_too_large_for_float.
  destruct summand; try tauto; symmetry; apply Z.leb_gt.
Qed.

(** X3. [_change_value] returns false in one situation only: unused
    navigation input is to be returned, and the value already is the bound
    the summand moves towards (for an infinite summand, on a value that
    converts to a float). *)
Theorem _change_value_hands_back (w : world) (summand : number) :
  fst (_change_value summand w) = Ok false <->
  _return_unused_navigation_input (self w) = true /\
  bound_towards (self w) summand = Some (_value (self w)) /\
  addable (_value (self w)) summand.
Proof.
  rewrite addable_iff.
  destruct w as [[v mn mx st jl h mk asc ru d] tr].
  unfold bound_towards, _change_value, _change_value_branches. unfold_monad.
  cbn [self _value _minimum _maximum _ascending _return_unused_navigation_input].
  destruct (int_too_large_for_float v) eqn:T;
    destruct summand as [z | |], asc, ru; cbn;
    repeat (split_if; cbn); bool_to_prop;
    (split; [intros H | intros (H1 & H2 & H3)]);
    try discriminate; try (repeat split; congruence);
    try (inversion H2; subst; lia); try lia.
Qed.



(** ** The input methods *)

(** With unused navigation input not returned, [_change_value] never
    returns false. *)
Lemma _change_value_swallows w summand b :
  _return_unused_navigation_input (self w) = false ->
  fst (_change_value summand w) = Ok b -> b = true.
Proof.
  destruct w as [[v mn mx st jl h mk asc ru d] tr].
  cbn [self _return_unused_navigation_input].
  intros ->.
  unfold _change_value, _change_value_branches. unfold_monad.
  destruct summand as [z | |], asc; cbn;
    repeat (split_if; cbn); intros H; inversion H; reflexivity.
Qed.

(** X5. A wheel event on the focused widget is [_change_value] and nothing
    more: with the event name carrying the picker's modifier, button 4 does
    and returns what [_change_value(-jump_len)] does, and button 5 what
    [_change_value(jump_len)] does, whatever
    [_return_unused_navigation_input] says; any other button, and any event
    off focus, returns false and changes nothing. *)
Theorem mouse_event_is_change_value (w : world) :
  let event := prepend_to (_modifier_key (self w)) "mouse press" in
  mouse_event event 4 true w = _change_value (Int (- _jump_len (self w))) w /\
  mouse_event event 5 true w = _change_value (Int (_jump_len (self w))) w /\
  (forall button, button <> 4 -> button <> 5 ->
                  mouse_event event button true w = (Ok false, w)) /\
  (forall e button, mouse_event e button false w = (Ok false, w)).
Proof.
  intros event.
  assert (W : forall z,
             match _change_value (Int z) w with
             | (Ok result, w') =>
                 (Ok (if _return_unused_navigation_input (self w)
                      then result else true), w')
             | (Raise e, w') => (Raise e, w')
             end
             = _change_value (Int z) w).
  { intros z.
    destruct (_change_value (Int z) w) as [[b | e] w'] eqn:E; [| reflexivity].
    destruct (_return_unused_navigation_input (self w)) eqn:R; [reflexivity |].
    rewrite (_change_value_swallows w (Int z) b R); [reflexivity |].
    now rewrite E. }
  unfold mouse_event. cbv [bind get_self ret].
  subst event. rewrite String.eqb_refl. cbn [Z.eqb Pos.eqb neg].
  repeat split.
  - apply W.
  - apply W.
  - intros button N4 N5.
    destruct (Z.eqb_spec button 4); [contradiction |].
    destruct (Z.eqb_spec button 5); [contradiction |]. reflexivity.
Qed.

Lemma navigation_summand_cases p k summand :
  navigation_summand p k = Some summand ->
  (k = "up"%string /\ summand = Int (- _step_len p)) \/
  (k = "down"%string /\ summand = Int (_step_len p)) \/
  (k = "page up"%string /\ summand = Int (- _jump_len p)) \/
  (k = "page down"%string /\ summand = Int (_jump_len p)) \/
  (k = "home"%string /\ summand = NegInf) \/
  (k = "end"%string /\ summand = PosInf).
Proof.
  unfold navigation_summand.
  repeat match goal with
         | |- context [String.eqb k ?x] => destruct (String.eqb_spec k x)
         end;
    intros H; inversion H; subst; cbn [neg]; tauto.
Qed.

(** X6. The key table: for each key name ["up"], ["down"], ["page up"],
    ["page down"], ["home"], ["end"], the key carrying the picker's own
    modifier runs [_change_value] with, in this order, [-step_len],
    [step_len], [-jump_len], [jump_len], [-inf], [inf]; the key comes back
    when [_change_value] returned false and [None] when it returned true,
    and an exception of [_change_value] passes through. *)
Theorem keypress_dispatch (w : world) (k : string) (summand : number) :
  navigation_summand (self w) k = Some summand ->
  keypress (prepend_to (_modifier_key (self w)) k) w
  = (successful <- _change_value summand ;;
     ret (key_unless (prepend_to (_modifier_key (self w)) k) successful)) w.
Proof.
  intros H. apply navigation_summand_cases in H.
  destruct w as [[v mn mx st jl h mk asc ru d] tr].
  cbn [self _modifier_key _step_len _jump_len] in *.
  unfold keypress, key_unless. cbv [bind get_self ret].
  cbn [self _modifier_key _step_len _jump_len neg].
  remember _change_value as change eqn:C.
  destruct H as [[-> ->] | [[-> ->] | [[-> ->] | [[-> ->] | [[-> ->] | [-> ->]]]]]];
    destruct mk; reflexivity.
Qed.

Lemma keypress_dispatch_witness :
  keypress "ctrl page down" (mkWorld right_picker [])
  = (successful <- _change_value (Int 100) ;;
     ret (key_unless "ctrl page down" successful)) (mkWorld right_picker []).
Proof.
  apply (keypress_dispatch (mkWorld right_picker []) "page down" (Int 100)).
  reflexivity.
Defined.

(** X7. A picker answers to its own modifier only: a navigation key
    carrying any other modifier (or none, when the picker has one) comes
    back unused, and nothing is changed or called. *)
Theorem keypress_ignores_other_modifiers
    (w : world) (m : MODIFIER_KEY) (k : string) :
  In k navigation_keys ->
  m <> _modifier_key (self w) ->
  keypress (prepend_to m k) w = (Ok (Some (prepend_to m k)), w).
Proof.
  intros K N.
  destruct w as [[v mn mx st jl h mk asc ru d] tr].
  cbn [self _modifier_key] in *.
  unfold keypress. cbv [bind get_self ret].
  cbn [self _modifier_key].
  remember _change_value as change eqn:C.
  unfold navigation_keys in K. cbn [In] in K.
  destruct K as [<- | [<- | [<- | [<- | [<- | [<- | []]]]]]];
    destruct m, mk; try congruence; reflexivity.
Qed.

Lemma keypress_ignores_other_modifiers_witness :
  keypress "up" (mkWorld right_picker [])
  = (Ok (Some "up"%string), mkWorld right_picker []).
Proof.
  apply (keypress_ignores_other_modifiers (mkWorld right_picker []) NONE "up").
  - simpl. tauto.
  - discriminate.
Defined.

(** ** Modified key names *)

Lemma string_length_append (s t : string) :
  String.length (s ++ t) = (String.length s + String.length t)%nat.
Proof. induction s as [| c s IH]; simpl; [reflexivity | now rewrite IH]. Qed.

Lemma string_append_nil_r (s : string) : (s ++ "")%string = s.
Proof. induction s as [| c s IH]; simpl; [reflexivity | now rewrite IH]. Qed.

Lemma string_append_inv_head (s t t' : string) :
  (s ++ t)%string = (s ++ t')%string -> t = t'.
Proof.
  induction s as [| c s IH]; simpl; intros H; [exact H |].
  injection H as H. now apply IH.
Qed.

Lemma string_append_inv_tail (t : string) :
  forall s s' : string, (s ++ t)%string = (s' ++ t)%string -> s = s'.
Proof.
  induction s as [| c s IH]; destruct s' as [| c' s']; simpl; intros H.
  - reflexivity.
  - apply (f_equal String.length) in H. simpl in H.
    rewrite string_length_append in H. lia.
  - apply (f_equal String.length) in H. simpl in H.
    rewrite string_length_append in H. lia.
  - injection H as -> H. f_equal. now apply IH.
Qed.

Lemma prepend_to_prefix m text :
  prepend_to m text
  = ((if is_NONE m then "" else MODIFIER_KEY_value m ++ " ") ++ text)%string.
Proof. destruct m; reflexivity. Qed.

Lemma append_to_suffix m text :
  append_to m text
  = (text ++ (if is_NONE m then "" else " " ++ MODIFIER_KEY_value m))%string.
Proof.
  destruct m; try reflexivity.
  unfold append_to. simpl. now rewrite string_append_nil_r.
Qed.

(** X8. [prepend_to] and [append_to] lose nothing: with the modifier fixed,
    different texts give different results, and with the text fixed,
    different modifiers give different results. *)
Theorem modifier_names_are_injective :
  (forall m t t', prepend_to m t = prepend_to m t' -> t = t') /\
  (forall m m' t, prepend_to m t = prepend_to m' t -> m = m') /\
  (forall m t t', append_to m t = append_to m t' -> t = t') /\
  (forall m m' t, append_to m t = append_to m' t -> m = m').
Proof.
  repeat split.
  - intros m t t'. rewrite !prepend_to_prefix. apply string_append_inv_head.
  - intros m m' t. rewrite !prepend_to_prefix. intros H.
    apply string_append_inv_tail in H.
    destruct m, m'; try reflexivity; discriminate H.
  - intros m t t'. rewrite !append_to_suffix. apply string_append_inv_tail.
  - intros m m' t. rewrite !append_to_suffix. intros H.
    apply string_append_inv_head in H.
    destruct m, m'; try reflexivity; discriminate H.
Qed.

(** ** The bars and the input *)

(** X9. The bars tell whether input is exhausted.  Either [render] draws the
    top bar as exposed, and then every negative integer summand (the keys
    up and page up, the wheel turned up) is handed back or swallowed with
    nothing changed; or it draws it as covered, and then every such summand
    changes the value.  The same holds for the bottom bar and positive
    summands. *)
Theorem bars_tell_exhausted_input (w : world) (l : bar_looks) (focus : bool) :
  (forall z, z < 0 ->
     (fst (render (self w) l focus) = top_exposed l focus /\
      _change_value (Int z) w
      = (Ok (negb (_return_unused_navigation_input (self w))), w)) \/
     (fst (render (self w) l focus) = top_covered l focus /\
      _value (self (snd (_change_value (Int z) w))) <> _value (self w))) /\
  (forall z, 0 < z ->
     (snd (render (self w) l focus) = bottom_exposed l focus /\
      _change_value (Int z) w
      = (Ok (negb (_return_unused_navigation_input (self w))), w)) \/
     (snd (render (self w) l focus) = bottom_covered l focus /\
      _value (self (snd (_change_value (Int z) w))) <> _value (self w))).
Proof.
  destruct w as [[v mn mx st jl h mk asc ru d] tr].
  unfold render, top_end_reached, bottom_end_reached.
  cbn [self _value _minimum _maximum _ascending _return_unused_navigation_input
       fst snd].
  split; intros z Hz.
  - destruct (Z.eqb_spec v (if asc then mn else mx)) as [E | E].
    + left. split; [reflexivity |].
      apply (_change_value_exhausted
               (mkWorld (mkIntegerPicker v mn mx st jl h mk asc ru d) tr) (Int z));
        [| exact I].
      unfold bound_towards, lt. cbn [self _value _minimum _maximum _ascending].
      destruct (Z.ltb_spec z 0); [| lia]. now rewrite <- E.
    + right. split; [reflexivity |].
      unfold _change_value, _change_value_branches. unfold_monad.
      destruct asc; crunch; lia.
  - destruct (Z.eqb_spec v (if asc then mx else mn)) as [E | E].
    + left. split; [reflexivity |].
      apply (_change_value_exhausted
               (mkWorld (mkIntegerPicker v mn mx st jl h mk asc ru d) tr) (Int z));
        [| exact I].
      unfold bound_towards, gt, lt. cbn [self _value _minimum _maximum _ascending].
      destruct (Z.ltb_spec z 0); [lia |].
      destruct (Z.ltb_spec 0 z); [| lia]. now rewrite <- E.
    + right. split; [reflexivity |].
      unfold _change_value, _change_value_branches. unfold_monad.
      destruct asc; crunch; lia.
Qed.

Lemma keypress_world_at w k summand :
  navigation_summand (self w) k = Some summand ->
  snd (keypress (prepend_to (_modifier_key (self w)) k) w)
  = snd (_change_value summand w).
Proof.
  intros H. apply navigation_summand_cases in H.
  destruct w as [[v mn mx st jl h mk asc ru d] tr].
  cbn [self _modifier_key _step_len _jump_len] in *.
  unfold keypress. cbv [bind get_self ret].
  cbn [self _modifier_key _step_len _jump_len neg].
  remember _change_value as change eqn:C.
  destruct H as [[-> ->] | [[-> ->] | [[-> ->] | [[-> ->] | [[-> ->] | [-> ->]]]]]];
    destruct mk; cbn;
    match goal with
    | |- context [change ?s ?w0] => destruct (change s w0) as [[? | ?] ?]
    end; reflexivity.
Qed.

Lemma _change_value_infinite w summand :
  Z.abs (_value (self w)) < float_limit ->
  summand = NegInf \/ summand = PosInf ->
  bound_towards (self w) summand
  = Some (_value (self (snd (_change_value summand w)))).
Proof.
  intros A S. apply int_too_large_for_float_false in A.
  destruct w as [[v mn mx st jl h mk asc ru d] tr].
  unfold bound_towards, _change_value, _change_value_branches. unfold_monad.
  cbn [self _value] in *.
  destruct S as [-> | ->]; rewrite A; destruct asc; crunch; congruence.
Qed.

(** X10. Home and end lead to the ends of the widget: on a value that
    converts to a float, the key home (with the picker's modifier) leaves
    the value at the minimum when ascending and at the maximum when
    descending, and [render] then draws the top bar as exposed; the key end
    leaves it at the other bound, and [render] draws the bottom bar as
    exposed. *)
Theorem home_and_end_reach_the_ends (w : world) (l : bar_looks) (focus : bool) :
  Z.abs (_value (self w)) < float_limit ->
  let m := _modifier_key (self w) in
  let home := self (snd (keypress (prepend_to m "home") w)) in
  let end_ := self (snd (keypress (prepend_to m "end") w)) in
  _value home = (if _ascending (self w) then _minimum (self w) else _maximum (self w)) /\
  fst (render home l focus) = top_exposed l focus /\
  _value end_ = (if _ascending (self w) then _maximum (self w) else _minimum (self w)) /\
  snd (render end_ l focus) = bottom_exposed l focus.
Proof.
  intros A m home end_. subst m home end_.
  rewrite (keypress_world_at w "home" NegInf eq_refl).
  rewrite (keypress_world_at w "end" PosInf eq_refl).
  pose proof (_change_value_infinite w NegInf A (or_introl eq_refl)) as H.
  pose proof (_change_value_infinite w PosInf A (or_intror eq_refl)) as E.
  assert (F : forall s,
             _minimum (self (snd (_change_value s w))) = _minimum (self w) /\
             _maximum (self (snd (_change_value s w))) = _maximum (self w) /\
             _ascending (self (snd (_change_value s w))) = _ascending (self w)).
  { intros s. destruct w as [[v mn mx st jl h mk asc ru d] tr].
    unfold _change_value, _change_value_branches. unfold_monad.
    destruct s, asc; crunch; repeat split; reflexivity. }
  unfold bound_towards in H, E. cbn [lt gt] in H, E.
  injection H as H. injection E as E.
  unfold render, top_end_reached, bottom_end_reached. cbn [fst snd].
  destruct (F NegInf) as (-> & -> & ->). destruct (F PosInf) as (-> & -> & ->).
  rewrite <- H, <- E, !Z.eqb_refl. repeat split; reflexivity.
Qed.

Lemma home_and_end_reach_the_ends_witness :
  _value (self (snd (keypress "ctrl home" (mkWorld right_picker [])))) = 1 /\
  fst (render (self (snd (keypress "ctrl home" (mkWorld right_picker []))))
         (mkBarLooks "^" None None "-" None None "v" None None "-" None None) true)
  = mkBar "-" None /\
  _value (self (snd (keypress "ctrl end" (mkWorld right_picker [])))) = 9999 /\
  snd (render (self (snd (keypress "ctrl end" (mkWorld right_picker []))))
         (mkBarLooks "^" None None "-" None None "v" None None "-" None None) true)
  = mkBar "-" None.
Proof.
  apply (home_and_end_reach_the_ends (mkWorld right_picker [])
           (mkBarLooks "^" None None "-" None None "v" None None "-" None None)
           true).
  vm_compute. reflexivity.
Defined.

(** ** The display row *)

Lemma set_text_each_spec contents :
  forall columns,
    SelectableRow.set_text_each contents columns
    = firstn (List.length columns) contents
      ++ skipn (List.length contents) columns.
Proof.
  induction contents as [| t contents IH]; intros [| c columns]; simpl;
    try reflexivity.
  now rewrite IH.
Qed.

(** X11. [set_contents] replaces the list [contents] whole but writes the
    column texts pairwise: the number of columns never changes; the columns
    show the new contents as far as both reach, and columns beyond the new
    contents keep their old text.  With as many new contents as columns the
    columns show exactly the new contents, and the row is the one
    [__init__] builds from them. *)
Theorem set_contents_writes_pairwise
    (contents : list string) (row : SelectableRow.t) :
  let row' := SelectableRow.set_contents contents row in
  SelectableRow.contents row' = contents /\
  List.length (SelectableRow._columns row')
  = List.length (SelectableRow._columns row) /\
  SelectableRow._columns row'
  = firstn (List.length (SelectableRow._columns row)) contents
    ++ skipn (List.length contents) (SelectableRow._columns row) /\
  (List.length contents = List.length (SelectableRow._columns row) ->
   row' = SelectableRow.__init__ contents (SelectableRow.on_select row)).
Proof.
  destruct row as [old columns f]. simpl.
  rewrite set_text_each_spec.
  repeat split.
  - rewrite length_app, length_firstn, length_skipn. lia.
  - intros E. unfold SelectableRow.set_contents, SelectableRow.__init__. simpl.
    rewrite set_text_each_spec, <- E, firstn_all, skipn_all2 by lia.
    now rewrite app_nil_r.
Qed.

(** ** Construction *)



(** ** Going to a bound and reading the value *)



(** ** Moving a bound without clamping *)

(** X14. A bound that does not cut off the value is just stored:
    [set_minimum(v)] with [v <= value] and [v <= maximum], and
    [set_maximum(v)] with [value <= v] and [minimum <= v], return with the
    bound set to [v]; the value, the display and the hook log stay as they
    were. *)
Theorem bound_adjustment_without_clamp (w : world) (v : Z) :
  (v <= _value (self w) -> v <= _maximum (self w) ->
   set_minimum v w = (Ok tt, mkWorld (with_minimum v (self w)) (calls w))) /\
  (_value (self w) <= v -> _minimum (self w) <= v ->
   set_maximum v w = (Ok tt, mkWorld (with_maximum v (self w)) (calls w))).
Proof.
  destruct w as [[x mn mx st jl h mk asc ru d] tr]. simpl.
  unfold set_minimum, set_maximum, set_to_minimum, set_to_maximum, set_value.
  unfold_monad.
  split; intros; crunch; try reflexivity; lia.
Qed.

Lemma bound_adjustment_without_clamp_witness :
  set_minimum 2000 (mkWorld right_picker [])
  = (Ok tt, mkWorld (with_minimum 2000 right_picker) []) /\
  set_maximum 2018 (mkWorld right_picker [])
  = (Ok tt, mkWorld (with_maximum 2018 right_picker) []).
Proof.
  destruct (bound_adjustment_without_clamp (mkWorld right_picker []) 2000)
    as [H0 _].
  destruct (bound_adjustment_without_clamp (mkWorld right_picker []) 2018)
    as [_ H1].
  split; [apply H0 | apply H1]; simpl; lia.
Defined.

(** ** Setting a value twice *)

(** X15. [set_value] twice: a second [set_value(v)] right after the first
    changes nothing more, and the hook is not called again.  When [v] is
    within the bounds the second call returns and [get_value] then returns
    [v], even if the first call raised at the refresh of the display; when
    [v] is outside the bounds the second call raises as the first did. *)
Theorem set_value_twice (w : world) (v : Z) :
  let w' := snd (set_value v w) in
  snd (set_value v w') = w' /\
  (_minimum (self w) <= v <= _maximum (self w) ->
   fst (set_value v w') = Ok tt /\ get_value w' = (Ok v, w')) /\
  (v < _minimum (self w) \/ _maximum (self w) < v ->
   set_value v w' = set_value v w).
Proof.
  destruct w as [[x mn mx st jl h mk asc ru d] tr]. simpl.
  unfold set_value, get_value. unfold_monad.
  split; [| split; intros B]; crunch; repeat split; subst;
    try reflexivity; lia.
Qed.

Lemma set_value_twice_witness :
  snd (set_value 7 (snd (set_value 7 (mkWorld right_picker []))))
  = snd (set_value 7 (mkWorld right_picker [])) /\
  fst (set_value 7 (snd (set_value 7 (mkWorld right_picker [])))) = Ok tt /\
  get_value (snd (set_value 7 (mkWorld right_picker [])))
  = (Ok 7, snd (set_value 7 (mkWorld right_picker []))) /\
  set_value 0 (snd (set_value 0 (mkWorld right_picker [])))
  = set_value 0 (mkWorld right_picker []).
Proof.
  destruct (set_value_twice (mkWorld right_picker []) 7) as [H0 [H1 _]].
  destruct (set_value_twice (mkWorld right_picker []) 0) as [_ [_ H2]].
  split; [exact H0 |].
  split; [apply H1; simpl; lia |].
  split; [apply H1; simpl; lia |].
  apply H2. left. reflexivity.
Defined.

(** ** What no operation touches *)

Lemma same_configuration_refl p : same_configuration p p.
Proof. unfold same_configuration. tauto. Qed.

Lemma same_configuration_trans p q r :
  same_configuration p q -> same_configuration q r -> same_configuration p r.
Proof.
  unfold same_configuration.
  intros (A1 & A2 & A3 & A4 & A5 & A6) (B1 & B2 & B3 & B4 & B5 & B6).
  repeat split; congruence.
Qed.

Lemma _change_value_frame summand w :
  same_configuration (self w) (self (snd (_change_value summand w))) /\
  _minimum (self (snd (_change_value summand w))) = _minimum (self w) /\
  _maximum (self (snd (_change_value summand w))) = _maximum (self w).
Proof.
  destruct w as [[v mn mx st jl h mk asc ru d] tr].
  unfold same_configuration, _change_value, _change_value_branches.
  unfold_monad.
  destruct summand, asc; crunch; repeat split; reflexivity.
Qed.

Lemma set_value_frame value w :
  same_configuration (self w) (self (snd (set_value value w))) /\
  _minimum (self (snd (set_value value w))) = _minimum (self w) /\
  _maximum (self (snd (set_value value w))) = _maximum (self w).
Proof.
  destruct w as [[v mn mx st jl h mk asc ru d] tr].
  unfold same_configuration, set_value. unfold_monad.
  crunch; repeat split; reflexivity.
Qed.

Lemma set_minimum_frame new_min w :
  same_configuration (self w) (self (snd (set_minimum new_min w))) /\
  _maximum (self (snd (set_minimum new_min w))) = _maximum (self w).
Proof.
  destruct w as [[v mn mx st jl h mk asc ru d] tr].
  unfold same_configuration, set_minimum, set_to_minimum, set_value.
  unfold_monad.
  crunch; repeat split; reflexivity.
Qed.

Lemma set_maximum_frame new_max w :
  same_configuration (self w) (self (snd (set_maximum new_max w))) /\
  _minimum (self (snd (set_maximum new_max w))) = _minimum (self w).
Proof.
  destruct w as [[v mn mx st jl h mk asc ru d] tr].
  unfold same_configuration, set_maximum, set_to_maximum, set_value.
  unfold_monad.
  crunch; repeat split; reflexivity.
Qed.

Lemma perform_frame o w :
  same_configuration (self w) (self (perform o w)) /\
  (sets_bound o = false ->
   _minimum (self (perform o w)) = _minimum (self w) /\
   _maximum (self (perform o w)) = _maximum (self w)).
Proof.
  destruct o; simpl.
  - destruct (_change_value_frame summand w) as (C & B). auto.
  - destruct (set_value_frame value w) as (C & B). auto.
  - rewrite set_to_minimum_unfold.
    destruct (set_value_frame (_minimum (self w)) w) as (C & B). auto.
  - rewrite set_to_maximum_unfold.
    destruct (set_value_frame (_maximum (self w)) w) as (C & B). auto.
  - destruct (set_minimum_frame new_min w) as (C & B).
    split; [exact C | discriminate].
  - destruct (set_maximum_frame new_max w) as (C & B).
    split; [exact C | discriminate].
  - destruct (keypress_world key w) as [-> | [s ->]].
    + split; [apply same_configuration_refl | auto].
    + destruct (_change_value_frame s w) as (C & B). auto.
  - destruct (mouse_event_world event button focus w) as [-> | [s ->]].
    + split; [apply same_configuration_refl | auto].
    + destruct (_change_value_frame s w) as (C & B). auto.
Qed.

(** X16. No sequence of operations changes [_step_len], [_jump_len], the
    hook, the modifier, [_ascending] or [_return_unused_navigation_input],
    and a sequence without [set_minimum] and [set_maximum] changes neither
    bound. *)
Theorem configuration_is_fixed (os : list operation) (w : world) :
  same_configuration (self w) (self (perform_all os w)) /\
  (forallb (fun o => negb (sets_bound o)) os = true ->
   _minimum (self (perform_all os w)) = _minimum (self w) /\
   _maximum (self (perform_all os w)) = _maximum (self w)).
Proof.
  revert w. induction os as [| o os IH]; intros w; simpl.
  - split; [apply same_configuration_refl | auto].
  - destruct (IH (perform o w)) as (C & B).
    destruct (perform_frame o w) as (C0 & B0).
    split.
    + eapply same_configuration_trans; eassumption.
    + intros H. apply andb_true_iff in H. destruct H as [H1 H2].
      apply negb_true_iff in H1.
      destruct (B H2) as [-> ->]. auto.
Qed.

(** ** Pickers whose every value can be shown *)








(** ** The hook log as a record of the value *)






(** ** The display *)



(** ** A step and back *)

(** X19. A step that stays within the bounds is undone by the opposite
    step: on a picker within its bounds, if [value + z] ([value - z] when
    descending) is within the bounds, [_change_value(z)] leaves the value
    there and [_change_value(-z)] right after brings the old value back. *)
Theorem step_and_back (w : world) (z : Z) :
  let there :=
    if _ascending (self w) then _value (self w) + z else _value (self w) - z in
  let w1 := snd (_change_value (Int z) w) in
  in_bounds (self w) ->
  _minimum (self w) <= there <= _maximum (self w) ->
  _value (self w1) = there /\
  _value (self (snd (_change_value (Int (- z)) w1))) = _value (self w).
Proof.
  intros there w1 ok T. subst there w1.
  assert (ok1 := _change_value_in_bounds w ok (Int z)).
  destruct (_change_value_int_step w z ok) as (Mn & Mx & A & V).
  destruct (_change_value_int_step _ (- z) ok1) as (_ & _ & _ & V1).
  rewrite V1, V. unfold target in *. rewrite A, Mn, Mx, V.
  unfold clamp, in_bounds in *. clear V V1 ok1 Mn Mx A. revert T.
  destruct (_ascending (self w)); intros T; split; lia.
Qed.

Lemma step_and_back_witness :
  _value (self (snd (_change_value (Int 100) (mkWorld right_picker [])))) = 2118 /\
  _value (self (snd (_change_value (Int (- 100))
                       (snd (_change_value (Int 100) (mkWorld right_picker []))))))
  = 2018.
Proof.
  apply (step_and_back (mkWorld right_picker []) 100);
    unfold in_bounds; simpl; lia.
Defined.
